(** * The agent executor of langchaingo (agents/executor.go)

    A shallow embedding of [Executor.Call] and its helpers
    [doIteration], [checkRepeatedAction], [doAction], [getReturn],
    [inputsToString] and [getNameToTool].

    Modelling choices:
    - Go strings are [string] (ASCII); [strings.ToUpper]/[strings.ToLower]
      are modelled on ASCII letters.
    - A Go [map[string]any] is [option (gmap string Any)]: [None] is the nil
      map, [Some m] a non-nil map ([make(map...)] is [Some ∅]).
    - The planner ([Agent.Plan]) and the tools are external collaborators:
      the planner is a function of the number of planner calls made so far
      in this [Call] (so a stateful LLM can answer differently each round),
      the step ledger and the inputs; a tool is a function of the steps
      carried by the context ([StepsContextKey]) and its input.
    - The observable effects (planner calls, tool calls, callback
      notifications) are recorded in a trace of [Event]s threaded through
      the code as explicit state.
    - A runtime panic (assignment into a nil map) is an explicit outcome. *)

From Stdlib Require Import String Ascii ZArith Lia.
From stdpp Require Import base gmap list strings.

Open Scope string_scope.
Open Scope list_scope.

(** ** Data model (schema package) *)

Record AgentAction := mkAction {
  Tool : string;
  ToolInput : string;
  Log : string
}.

Record AgentStep := mkStep {
  Action : AgentAction;
  Observation : string
}.

(** The values of a [map[string]any] that the executor handles. *)
Inductive Any :=
| AStr (s : string)
| ASteps (l : list AgentStep)
| AInt (z : Z).

(** A Go map value: [None] is the nil map. *)
Abbreviation GoMap := (option (gmap string Any)).

Record AgentFinish := mkFinish {
  ReturnValues : GoMap;
  FinishLog : string
}.

(** ** Errors

    [ErrUnableToParseOutput msg] is any error [err] for which
    [errors.Is(err, ErrUnableToParseOutput)] holds; [msg] is [err.Error()].
    [ErrOther msg] is any other error (planner or tool specific). *)
Inductive Err :=
| ErrUnableToParseOutput (msg : string)
| ErrOther (msg : string)
| ErrAgentNoReturn
| ErrNotFinished
| ErrExecutorInputNotString (key : string).

(** [err.Error()]. The sentinel errors are declared in agents/errors.go;
    their texts are those of the upstream package. *)
Definition Error (e : Err) : string :=
  match e with
  | ErrUnableToParseOutput msg => msg
  | ErrOther msg => msg
  | ErrAgentNoReturn => "no actions or finish was returned by the agent"
  | ErrNotFinished => "agent not finished before max iterations"
  | ErrExecutorInputNotString key => ("input to executor not string: " ++ key)%string
  end.

(** [errors.Is(err, ErrUnableToParseOutput)] *)
Definition isUnableToParse (e : Err) : bool :=
  match e with ErrUnableToParseOutput _ => true | _ => false end.

(** ** Observable effects *)

Inductive Event :=
| EvPlan (round : nat)                              (* e.Agent.Plan(...) *)
| EvToolCall (name input : string)                  (* tool.Call(ctx, input) *)
| EvAgentAction (a : AgentAction)                   (* HandleAgentAction *)
| EvAgentFinish (rv : GoMap) (steps : list AgentStep). (* HandleAgentFinish *)

Abbreviation Trace := (list Event).

Definition is_plan (ev : Event) : bool :=
  match ev with EvPlan _ => true | _ => false end.

Definition is_agent_finish (ev : Event) : bool :=
  match ev with EvAgentFinish _ _ => true | _ => false end.

(** Number of planner invocations recorded in a trace. *)
Definition plan_count (tr : Trace) : nat := length (List.filter is_plan tr).

(** Number of [HandleAgentFinish] notifications recorded in a trace. *)
Definition finish_count (tr : Trace) : nat := length (List.filter is_agent_finish tr).

Definition is_tool_call (ev : Event) : bool :=
  match ev with EvToolCall _ _ => true | _ => false end.

(** Number of tool invocations recorded in a trace. *)
Definition tool_call_count (tr : Trace) : nat := length (List.filter is_tool_call tr).

(** Events that are notifications of the callbacks handler. *)
Definition is_callback (ev : Event) : bool :=
  match ev with EvAgentAction _ | EvAgentFinish _ _ => true | _ => false end.

(** ** Collaborators *)

(** [tools.Tool]: [Name()] and [Call(ctx, input)]; the context carries the
    current steps. The result is [(observation, err)]. *)
Record tools_Tool := mkTool {
  Name : string;
  ToolCall : list AgentStep -> string -> string * option Err
}.

(** [Agent]: [Plan(ctx, steps, inputs)] returning [(actions, finish, err)],
    and [GetTools()]. *)
Record Agent := mkAgent {
  Plan : nat -> list AgentStep -> gmap string string ->
         list AgentAction * option AgentFinish * option Err;
  GetTools : list tools_Tool
}.

(** [ParserErrorHandler] with its optional [Formatter]. *)
Record ParserErrorHandler := mkHandler {
  Formatter : option (string -> string)
}.

(** [Executor]; [HasCallbacks] says whether [CallbacksHandler != nil]. *)
Record Executor := mkExecutor {
  ExAgent : Agent;
  HasCallbacks : bool;
  ErrorHandler : option ParserErrorHandler;
  MaxIterations : Z;
  ReturnIntermediateSteps : bool
}.

(** ** strings.ToUpper / strings.ToLower on ASCII *)

Definition ascii_upper (c : ascii) : ascii :=
  let n := nat_of_ascii c in
  if (97 <=? n)%nat && (n <=? 122)%nat then ascii_of_nat (n - 32) else c.

Definition ascii_lower (c : ascii) : ascii :=
  let n := nat_of_ascii c in
  if (65 <=? n)%nat && (n <=? 90)%nat then ascii_of_nat (n + 32) else c.

Fixpoint ToUpper (s : string) : string :=
  match s with
  | EmptyString => EmptyString
  | String c s' => String (ascii_upper c) (ToUpper s')
  end.

Fixpoint ToLower (s : string) : string :=
  match s with
  | EmptyString => EmptyString
  | String c s' => String (ascii_lower c) (ToLower s')
  end.

(** ** Executor *)

Definition _intermediateStepsOutputKey : string := "intermediateSteps".

Definition repeatedActionObservation : string :=
  "ATTENTION: you are repeating the same action. Now, you have just 2 options: 1. Write the final answer. 2. Write a different action".

Definition noneToolObservation : string :=
  "ATTENTION: write the final answer. use the format -> Final Answer: ".

Definition invalidToolObservation (tool : string) : string :=
  (tool ++ " is not a valid tool, try another one")%string.

Definition lastChanceObservation : string :=
  (String "010" " Important: Do you have enough data to answer? Provide the final answer " ++ String "010" "")%string.

Definition emptyAction : AgentAction := mkAction "" "" "".

(** Registry: [getNameToTool]; later tools overwrite earlier ones under the
    same upper-cased name. An empty tool list gives Go's nil map, whose
    lookups behave as those of the empty map. *)
Definition getNameToTool (t : list tools_Tool) : gmap string tools_Tool :=
  match t with
  | [] => ∅
  | _ => foldl (fun m tool => <[ToUpper (Name tool) := tool]> m) ∅ t
  end.

(** [inputsToString]: [inputValues] lists the entries of the Go map in the
    order in which the [range] loop visits them (Go leaves it unspecified,
    so theorems quantify over all orders). *)
Fixpoint inputsToString_go (kvs : list (string * Any)) (inputs : gmap string string)
  : gmap string string + Err :=
  match kvs with
  | [] => inl inputs
  | (key, value) :: rest =>
      match value with
      | AStr valueStr => inputsToString_go rest (<[key := valueStr]> inputs)
      | _ => inr (ErrExecutorInputNotString key)
      end
  end.

Definition inputsToString (inputValues : list (string * Any)) : gmap string string + Err :=
  inputsToString_go inputValues ∅.

(** [getReturn]: [None] is a runtime panic (assignment to an entry of a nil
    map). *)
Definition getReturn (e : Executor) (finish : AgentFinish) (steps : list AgentStep)
  : option GoMap :=
  if ReturnIntermediateSteps e then
    match ReturnValues finish with
    | Some rv => Some (Some (<[_intermediateStepsOutputKey := ASteps steps]> rv))
    | None => None
    end
  else Some (ReturnValues finish).

(** [checkRepeatedAction]; the error is [fmt.Errorf("repeated action: %s")]. *)
Definition is_repeated (steps : list AgentStep) (action : AgentAction) : bool :=
  existsb (fun step => String.eqb (Tool (Action step)) (Tool action)
                       && String.eqb (ToolInput (Action step)) (ToolInput action)) steps.

Definition checkRepeatedAction (steps : list AgentStep) (action : AgentAction)
  : list AgentStep * option Err :=
  if is_repeated steps action
  then (steps ++ [mkStep action repeatedActionObservation],
        Some (ErrOther ("repeated action: " ++ Tool action)%string))
  else (steps, None).

Definition notify (e : Executor) (tr : Trace) (ev : Event) : Trace :=
  if HasCallbacks e then tr ++ [ev] else tr.

(** [doAction]: on a tool error the Go code returns [nil, err]. *)
Definition doAction (e : Executor) (tr : Trace) (steps : list AgentStep)
    (nameToTool : gmap string tools_Tool) (action : AgentAction)
  : list AgentStep * option Err * Trace :=
  let tr := notify e tr (EvAgentAction action) in
  match nameToTool !! ToUpper (Tool action) with
  | None =>
      if String.eqb (ToLower (Tool action)) "none"
      then (steps ++ [mkStep action noneToolObservation], None, tr)
      else (steps ++ [mkStep action (invalidToolObservation (Tool action))], None, tr)
  | Some tool =>
      let tr := tr ++ [EvToolCall (Name tool) (ToolInput action)] in
      match ToolCall tool steps (ToolInput action) with
      | (_, Some err) => ([], Some err, tr)
      | (observation, None) => (steps ++ [mkStep action observation], None, tr)
      end
  end.

(** The [for _, action := range actions] loop of [doIteration]. A repeated
    action ends the loop without an error. *)
Fixpoint runActions (e : Executor) (nameToTool : gmap string tools_Tool)
    (actions : list AgentAction) (steps : list AgentStep) (tr : Trace)
  : list AgentStep * option Err * Trace :=
  match actions with
  | [] => (steps, None, tr)
  | action :: rest =>
      match checkRepeatedAction steps action with
      | (steps, Some _) => (steps, None, tr)
      | (steps, None) =>
          match doAction e tr steps nameToTool action with
          | (steps, Some err, tr) => (steps, Some err, tr)
          | (steps, None, tr) => runActions e nameToTool rest steps tr
          end
      end
  end.

(** Result of [doIteration]: [(steps, finish map, err)] or a panic. *)
Inductive IterOut :=
| IterOk (steps : list AgentStep) (finish : GoMap) (err : option Err)
| IterPanic.

Definition recoveryObservation (h : ParserErrorHandler) (err : Err) : string :=
  match Formatter h with
  | Some f => f (Error err)
  | None => Error err
  end.

Definition doIteration (e : Executor) (steps : list AgentStep)
    (nameToTool : gmap string tools_Tool) (inputs : gmap string string) (tr : Trace)
  : IterOut * Trace :=
  let '(actions, finish, err) := Plan (ExAgent e) (plan_count tr) steps inputs in
  let tr := tr ++ [EvPlan (plan_count tr)] in
  match err, ErrorHandler e with
  | Some er, Some h =>
      if isUnableToParse er
      then (IterOk (steps ++ [mkStep emptyAction (recoveryObservation h er)]) None None, tr)
      else (IterOk steps None (Some er), tr)
  | Some er, None => (IterOk steps None (Some er), tr)
  | None, _ =>
      match actions, finish with
      | [], None => (IterOk steps None (Some ErrAgentNoReturn), tr)
      | _, Some f =>
          let tr := notify e tr (EvAgentFinish (ReturnValues f) steps) in
          match getReturn e f steps with
          | Some out => (IterOk steps out None, tr)
          | None => (IterPanic, tr)
          end
      | _, None =>
          let '(steps, err, tr) := runActions e nameToTool actions steps tr in
          (IterOk steps None err, tr)
      end
  end.

(** The "last chance" hint appended after iteration [i]. *)
Definition lastChance (e : Executor) (i : Z) (steps : list AgentStep) : list AgentStep :=
  if (2 <? MaxIterations e)%Z && (i =? MaxIterations e - 2)%Z
  then steps ++ [mkStep emptyAction lastChanceObservation]
  else steps.

Inductive LoopOut :=
| LoopReturn (out : GoMap) (err : option Err) (tr : Trace)
| LoopPanic (tr : Trace)
| LoopExhausted (steps : list AgentStep) (tr : Trace).

Definition isSome {A} (o : option A) : bool :=
  match o with Some _ => true | None => false end.

(** [for i := 0; i < e.MaxIterations; i++ { ... }]: [n] is the number of
    iterations left, [i] Go's counter (so [i + n = MaxIterations] when
    started at [0] with [n = Z.to_nat MaxIterations]). *)
Fixpoint forLoop (e : Executor) (nameToTool : gmap string tools_Tool)
    (inputs : gmap string string) (n : nat) (i : Z) (steps : list AgentStep) (tr : Trace)
  : LoopOut :=
  match n with
  | O => LoopExhausted steps tr
  | S n' =>
      match doIteration e steps nameToTool inputs tr with
      | (IterPanic, tr) => LoopPanic tr
      | (IterOk steps finish err, tr) =>
          if isSome finish || isSome err then LoopReturn finish err tr
          else forLoop e nameToTool inputs n' (i + 1) (lastChance e i steps) tr
      end
  end.

(** The arguments (round, ledger) of the [Plan] calls made by a run of
    [forLoop], in order: iteration [tr] calls the planner at round
    [plan_count tr] with the current ledger, and the run goes on exactly
    when [forLoop] does. *)
Fixpoint forLoop_plan_args (e : Executor) (nameToTool : gmap string tools_Tool)
    (inputs : gmap string string) (n : nat) (i : Z) (steps : list AgentStep) (tr : Trace)
  : list (nat * list AgentStep) :=
  match n with
  | O => []
  | S n' =>
      (plan_count tr, steps) ::
      match doIteration e steps nameToTool inputs tr with
      | (IterPanic, _) => []
      | (IterOk steps' finish err, tr') =>
          if isSome finish || isSome err then []
          else forLoop_plan_args e nameToTool inputs n' (i + 1) (lastChance e i steps') tr'
      end
  end.

Inductive CallResult :=
| Returned (out : GoMap) (err : option Err)
| Panicked.

Definition notFinishedMarker : GoMap :=
  Some {[ "output" := AStr (Error ErrNotFinished) ]}.

(** [Executor.Call]. *)
Definition Call (e : Executor) (inputValues : list (string * Any)) : CallResult * Trace :=
  match inputsToString inputValues with
  | inr err => (Returned None (Some err), [])
  | inl inputs =>
      let nameToTool := getNameToTool (GetTools (ExAgent e)) in
      match forLoop e nameToTool inputs (Z.to_nat (MaxIterations e)) 0 [] [] with
      | LoopReturn finish err tr => (Returned finish err, tr)
      | LoopPanic tr => (Panicked, tr)
      | LoopExhausted steps tr =>
          let tr := notify e tr (EvAgentFinish notFinishedMarker steps) in
          match getReturn e (mkFinish (Some ∅) "") steps with
          | Some out => (Returned out (Some ErrNotFinished), tr)
          | None => (Panicked, tr)
          end
      end
  end.

(** ** Concrete configurations used by the examples below *)

Definition output_map (v : string) : GoMap := Some {[ "output" := AStr v ]}.

Definition calc_action : AgentAction := mkAction "calc" "2+2" "".
Definition search_action : AgentAction := mkAction "search" "capital of France" "".
Definition none_action : AgentAction := mkAction "None" "" "".

Definition calc_tool : tools_Tool := mkTool "calc" (fun _ _ => ("4", None)).
Definition search_tool : tools_Tool := mkTool "search" (fun _ _ => ("Paris", None)).
Definition failing_calc_tool : tools_Tool :=
  mkTool "calc" (fun _ _ => ("", Some (ErrOther "calculator failed"))).
(** A registered tool whose name is the sentinel "none". *)
Definition none_tool : tools_Tool := mkTool "None" (fun _ input => ("ran " ++ input, None)%string).

Definition question : list (string * Any) := [("input", AStr "2+2?")].

(** Planner proposing [calc 2+2] in rounds 0 and 1, then finishing. *)
Definition repeating_agent : Agent :=
  mkAgent (fun k _ _ =>
             match k with
             | 0 | 1 => ([calc_action], None, None)
             | _ => ([], Some (mkFinish (output_map "4") ""), None)
             end) [calc_tool].
Definition repeating_exec : Executor := mkExecutor repeating_agent true None 3 false.

(** Planner whose first Finish carries a nil return-value map. *)
Definition nil_finish_agent : Agent :=
  mkAgent (fun k _ _ =>
             match k with
             | 0 => ([], Some (mkFinish None ""), None)
             | _ => ([], Some (mkFinish (output_map "done") ""), None)
             end) [].
Definition nil_finish_exec : Executor := mkExecutor nil_finish_agent true None 2 false.

(** Planner that never finishes. *)
Definition endless_agent : Agent :=
  mkAgent (fun _ _ _ => ([search_action], None, None)) [search_tool].
Definition endless_exec : Executor := mkExecutor endless_agent true None 1 true.

(** Planner that proposes a search in round 0 and finishes from round 1
    on, run with a budget of a single iteration. *)
Definition late_finish_agent : Agent :=
  mkAgent (fun k _ _ =>
             match k with
             | 0 => ([search_action], None, None)
             | _ => ([], Some (mkFinish (output_map "Paris") ""), None)
             end) [search_tool].
Definition late_finish_exec : Executor := mkExecutor late_finish_agent true None 1 false.

(** [repeating_agent] run without a callbacks handler. *)
Definition silent_exec : Executor := mkExecutor repeating_agent false None 3 false.

(** [nil_finish_agent] run with intermediate steps requested. *)
Definition nil_steps_exec : Executor := mkExecutor nil_finish_agent true None 2 true.

(** Planner whose output never parses, run without a recovery policy. *)
Definition unparsable_agent : Agent :=
  mkAgent (fun _ _ _ => ([], None, Some (ErrUnableToParseOutput "unable to parse agent output: ???"))) [].
Definition strict_exec : Executor := mkExecutor unparsable_agent true None 3 false.

Definition quiet_exec : Executor :=
  mkExecutor (mkAgent (fun _ _ _ => ([], None, None)) []) false None 0 false.

(** Planner returning an action together with a Finish. *)
Definition finishing_agent : Agent :=
  mkAgent (fun _ _ _ => ([calc_action], Some (mkFinish (output_map "4") ""), None)) [calc_tool].
Definition finishing_exec : Executor := mkExecutor finishing_agent true None 3 true.

(** Planner failing with an error other than unparsable output, run with a
    parser error handler. *)
Definition erroring_agent : Agent :=
  mkAgent (fun _ _ _ => ([calc_action], None, Some (ErrOther "rate limited"))) [calc_tool].
Definition erroring_exec : Executor :=
  mkExecutor erroring_agent true (Some (mkHandler None)) 3 false.

(** ** Trace bookkeeping *)

Definition loop_trace (o : LoopOut) : Trace :=
  match o with
  | LoopReturn _ _ tr | LoopPanic tr | LoopExhausted _ tr => tr
  end.

Lemma plan_count_app (tr1 tr2 : Trace) :
  plan_count (tr1 ++ tr2) = plan_count tr1 + plan_count tr2.
Proof. unfold plan_count. by rewrite List.filter_app, length_app. Qed.

Lemma notify_plan_count (e : Executor) (tr : Trace) (ev : Event) :
  is_plan ev = false -> plan_count (notify e tr ev) = plan_count tr.
Proof.
  intros Hev. unfold notify. destruct (HasCallbacks e); [|done].
  rewrite plan_count_app. unfold plan_count at 2; simpl. rewrite Hev. simpl. lia.
Qed.

Lemma doAction_plan_count e tr steps ntt a :
  plan_count (doAction e tr steps ntt a).2 = plan_count tr.
Proof.
  unfold doAction.
  destruct (ntt !! ToUpper (Tool a)) as [t|].
  - destruct (ToolCall t steps (ToolInput a)) as [obs [er|]]; simpl;
      rewrite plan_count_app, notify_plan_count by done;
      unfold plan_count at 2; simpl; lia.
  - destruct (String.eqb _ _); simpl; by rewrite notify_plan_count.
Qed.

Lemma runActions_plan_count e ntt actions :
  forall steps tr, plan_count (runActions e ntt actions steps tr).2 = plan_count tr.
Proof.
  induction actions as [|a rest IH]; intros steps tr; simpl; [done|].
  destruct (checkRepeatedAction steps a) as [s1 [r|]]; [done|].
  pose proof (doAction_plan_count e tr s1 ntt a) as Hd.
  destruct (doAction e tr s1 ntt a) as [[s2 [er|]] tr2]; simpl in *; [done|].
  by rewrite IH.
Qed.

Lemma doIteration_plan_count e steps ntt inputs tr :
  plan_count (doIteration e steps ntt inputs tr).2 = S (plan_count tr).
Proof.
  assert (Hp : plan_count (tr ++ [EvPlan (plan_count tr)]) = S (plan_count tr)).
  { rewrite plan_count_app. unfold plan_count at 2. simpl. lia. }
  unfold doIteration.
  destruct (Plan (ExAgent e) (plan_count tr) steps inputs) as [[actions finish] err].
  destruct err as [er|].
  { destruct (ErrorHandler e); [destruct (isUnableToParse er)|]; exact Hp. }
  destruct actions as [|a rest], finish as [f|]; try exact Hp.
  - destruct (getReturn e f steps); simpl; rewrite notify_plan_count by done; exact Hp.
  - destruct (getReturn e f steps); simpl; rewrite notify_plan_count by done; exact Hp.
  - pose proof (runActions_plan_count e ntt (a :: rest) steps
      (tr ++ [EvPlan (plan_count tr)])) as Hr.
    destruct (runActions e ntt (a :: rest) steps _) as [[s er] tr']. simpl in *. congruence.
Qed.

Lemma forLoop_plan_count e ntt inputs n :
  forall i steps tr,
  plan_count (loop_trace (forLoop e ntt inputs n i steps tr)) <= plan_count tr + n.
Proof.
  induction n as [|n IH]; intros i steps tr; simpl; [lia|].
  pose proof (doIteration_plan_count e steps ntt inputs tr) as Hd.
  destruct (doIteration e steps ntt inputs tr) as [[s fin er|] tr']; simpl in *.
  - destruct (isSome fin || isSome er); simpl; [lia|].
    specialize (IH (i + 1)%Z (lastChance e i s) tr'). lia.
  - lia.
Qed.

(** ** C3 *)

(** C3: in every [Call], the planner is invoked at most [maxIterations]
    times (zero times when [maxIterations <= 0]), however many actions each
    plan returns: the trace of the call holds at most [Z.to_nat MaxIterations]
    planner invocations. *)
Theorem Call_plan_calls_bounded (e : Executor) (inputValues : list (string * Any)) :
  plan_count (Call e inputValues).2 <= Z.to_nat (MaxIterations e).
Proof.
  unfold Call. destruct (inputsToString inputValues) as [inputs|err]; simpl;
    [|unfold plan_count; simpl; lia].
  pose proof (forLoop_plan_count e (getNameToTool (GetTools (ExAgent e))) inputs
                (Z.to_nat (MaxIterations e)) 0 [] []) as H.
  destruct (forLoop _ _ _ _ _ _ _) as [fin er tr|tr|steps tr]; simpl in *; try lia.
  destruct (getReturn _ _ _); simpl; rewrite notify_plan_count by done; exact H.
Qed.

(** ** Input validation *)

Definition is_string_value (v : Any) : Prop := exists s, v = AStr s.

Lemma inputsToString_go_not_string (kvs : list (string * Any)) :
  forall acc k0 v0, In (k0, v0) kvs -> ~ is_string_value v0 ->
  exists k v, In (k, v) kvs /\ ~ is_string_value v /\
    inputsToString_go kvs acc = inr (ErrExecutorInputNotString k).
Proof.
  induction kvs as [|[key value] rest IH]; intros acc k0 v0 Hin Hns; [done|].
  simpl. destruct value as [s|l|z].
  - destruct Hin as [Heq|Hin].
    + injection Heq as -> <-. exfalso. apply Hns. by exists s.
    + destruct (IH (<[key:=s]> acc) k0 v0 Hin Hns) as (k & v & Hk & Hv & Hr).
      exists k, v. auto.
  - exists key, (ASteps l). split; [by left|]. split; [|done].
    by intros [s' ?].
  - exists key, (AInt z). split; [by left|]. split; [|done].
    by intros [s' ?].
Qed.

Lemma inputsToString_go_strings (kvs : list (string * Any)) :
  forall acc, Forall (fun kv => is_string_value kv.2) kvs ->
  exists inputs, inputsToString_go kvs acc = inl inputs.
Proof.
  induction kvs as [|[key value] rest IH]; intros acc Hall; simpl; [by eauto|].
  inversion Hall as [|? ? [s Hs] Hrest]; subst. simpl in Hs; subst.
  by apply IH.
Qed.

(** ** C8 *)

(** C8: if some input value is not a string, [Call] fails with
    [ErrExecutorInputNotString k] for a key [k] whose value is not a string,
    returns no outputs, and its trace is empty: no planner call, no tool
    call and no callback has happened. *)
Theorem Call_input_not_string (e : Executor) (inputValues : list (string * Any))
    (k0 : string) (v0 : Any) :
  In (k0, v0) inputValues -> ~ is_string_value v0 ->
  exists k v, In (k, v) inputValues /\ ~ is_string_value v /\
    Call e inputValues = (Returned None (Some (ErrExecutorInputNotString k)), []).
Proof.
  intros Hin Hns.
  destruct (inputsToString_go_not_string inputValues ∅ k0 v0 Hin Hns)
    as (k & v & Hk & Hv & Hr).
  exists k, v. split; [done|]. split; [done|].
  unfold Call, inputsToString. by rewrite Hr.
Qed.

(** ** C10 *)

(** C10: with [maxIterations <= 0] and only string inputs, [Call] makes no
    planner and no tool call and returns [ErrNotFinished]; the only event is
    one [HandleAgentFinish] with the "not finished" marker when a callbacks
    handler is configured. The outputs are the empty map, holding only the
    (empty) ledger when [ReturnIntermediateSteps] is set. *)
Theorem Call_nonpositive_max_iterations (e : Executor) (inputValues : list (string * Any)) :
  (MaxIterations e <= 0)%Z ->
  Forall (fun kv => is_string_value kv.2) inputValues ->
  Call e inputValues =
    (Returned (Some (if ReturnIntermediateSteps e
                     then {[ _intermediateStepsOutputKey := ASteps [] ]} else ∅))
              (Some ErrNotFinished),
     if HasCallbacks e then [EvAgentFinish notFinishedMarker []] else []).
Proof.
  intros Hmax Hstr.
  destruct (inputsToString_go_strings inputValues ∅ Hstr) as [inputs Hin].
  unfold Call, inputsToString. rewrite Hin.
  replace (Z.to_nat (MaxIterations e)) with 0 by lia. simpl.
  unfold getReturn, notify; simpl.
  destruct (ReturnIntermediateSteps e), (HasCallbacks e); simpl; try done.
Qed.

(** ** Ledger growth *)

Lemma prefix_snoc (l : list AgentStep) (st : AgentStep) : l `prefix_of` l ++ [st].
Proof. by apply prefix_app_r. Qed.

Create HintDb ledger.
#[local] Hint Resolve prefix_snoc : ledger.
#[local] Hint Extern 1 (_ `prefix_of` _) => reflexivity : ledger.

Lemma checkRepeatedAction_extends (steps : list AgentStep) (a : AgentAction) :
  steps `prefix_of` (checkRepeatedAction steps a).1.
Proof. unfold checkRepeatedAction. destruct (is_repeated steps a); simpl; auto with ledger. Qed.

Lemma doAction_ledger e tr steps ntt a :
  match doAction e tr steps ntt a with
  | (steps', None, _) => steps `prefix_of` steps'
  | (steps', Some _, _) => steps' = []
  end.
Proof.
  unfold doAction.
  destruct (ntt !! ToUpper (Tool a)) as [t|].
  - destruct (ToolCall t steps (ToolInput a)) as [obs [er|]]; auto with ledger.
  - destruct (String.eqb _ _); auto with ledger.
Qed.

Lemma runActions_ledger e ntt actions :
  forall steps tr,
  match runActions e ntt actions steps tr with
  | (steps', None, _) => steps `prefix_of` steps'
  | (steps', Some _, _) => steps' = []
  end.
Proof.
  induction actions as [|a rest IH]; intros steps tr; simpl; [reflexivity|].
  pose proof (checkRepeatedAction_extends steps a) as Hc.
  destruct (checkRepeatedAction steps a) as [s1 [r|]]; simpl in Hc; [done|].
  pose proof (doAction_ledger e tr s1 ntt a) as Hd.
  destruct (doAction e tr s1 ntt a) as [[s2 [er|]] tr2]; [done|].
  specialize (IH s2 tr2).
  destruct (runActions e ntt rest s2 tr2) as [[s3 [er|]] tr3]; [done|].
  by transitivity s1; [|transitivity s2].
Qed.

Lemma doIteration_ledger e steps ntt inputs tr :
  match (doIteration e steps ntt inputs tr).1 with
  | IterOk steps' _ err => steps `prefix_of` steps' \/ (steps' = [] /\ isSome err = true)
  | IterPanic => True
  end.
Proof.
  unfold doIteration.
  destruct (Plan (ExAgent e) (plan_count tr) steps inputs) as [[actions finish] err].
  destruct err as [er|].
  { destruct (ErrorHandler e); [destruct (isUnableToParse er)|]; simpl; auto with ledger. }
  destruct actions as [|a rest], finish as [f|];
    [ | simpl; auto with ledger | | ];
    try (cbn -[getReturn]; destruct (getReturn e f steps); simpl; auto with ledger; fail).
  pose proof (runActions_ledger e ntt (a :: rest) steps (tr ++ [EvPlan (plan_count tr)])) as Hr.
  cbn -[runActions].
  destruct (runActions e ntt (a :: rest) steps _) as [[s [er|]] tr']; simpl; auto.
Qed.

Lemma lastChance_extends e i steps : steps `prefix_of` lastChance e i steps.
Proof. unfold lastChance. destruct (_ && _); auto with ledger. Qed.

Lemma forLoop_ledger e ntt inputs n :
  forall i steps tr steps' tr',
  forLoop e ntt inputs n i steps tr = LoopExhausted steps' tr' ->
  steps `prefix_of` steps'.
Proof.
  induction n as [|n IH]; intros i steps tr steps' tr' H; simpl in H.
  - by injection H as <- _.
  - pose proof (doIteration_ledger e steps ntt inputs tr) as Hd.
    destruct (doIteration e steps ntt inputs tr) as [[s fin er|] tr1]; simpl in Hd; [|done].
    destruct fin, er; simpl in H; try done.
    destruct Hd as [Hd|[_ Hd]]; [|done].
    transitivity s; [done|]. transitivity (lastChance e i s); [apply lastChance_extends|].
    by eapply IH.
Qed.

(** ** One iteration of the loop *)

Lemma doIteration_actions e steps ntt inputs tr acts :
  Plan (ExAgent e) (plan_count tr) steps inputs = (acts, None, None) -> acts <> [] ->
  doIteration e steps ntt inputs tr =
    let '(steps', err, tr') := runActions e ntt acts steps (tr ++ [EvPlan (plan_count tr)]) in
    (IterOk steps' None err, tr').
Proof.
  intros Hp Hne. unfold doIteration. rewrite Hp.
  destruct acts as [|a rest]; [done|]. reflexivity.
Qed.

Lemma forLoop_continue e ntt inputs n i steps tr steps' tr' :
  doIteration e steps ntt inputs tr = (IterOk steps' None None, tr') ->
  forLoop e ntt inputs (S n) i steps tr = forLoop e ntt inputs n (i + 1) (lastChance e i steps') tr'.
Proof. intros H. simpl. by rewrite H. Qed.

Lemma forLoop_error e ntt inputs n i steps tr steps' er tr' :
  doIteration e steps ntt inputs tr = (IterOk steps' None (Some er), tr') ->
  forLoop e ntt inputs (S n) i steps tr = LoopReturn None (Some er) tr'.
Proof. intros H. simpl. by rewrite H. Qed.

Lemma runActions_not_repeated e ntt steps tr a rest :
  is_repeated steps a = false ->
  runActions e ntt (a :: rest) steps tr =
    match doAction e tr steps ntt a with
    | (steps', Some err, tr') => (steps', Some err, tr')
    | (steps', None, tr') => runActions e ntt rest steps' tr'
    end.
Proof. intros H. simpl. unfold checkRepeatedAction. by rewrite H. Qed.

(** ** C1 *)

(** C1 (as amended): when an action's [(tool, toolInput)] equals that of a
    step already in the ledger, one cautionary step is appended, the action
    and the rest of the batch are not dispatched (no event happens) and no
    error is reported; an iteration whose batch ends without error does not
    end the [Call]: the loop goes on with the next iteration. *)
Theorem repeated_action_soft_stop (e : Executor) (ntt : gmap string tools_Tool)
    (inputs : gmap string string) :
  (forall steps tr a rest,
     is_repeated steps a = true ->
     runActions e ntt (a :: rest) steps tr =
       (steps ++ [mkStep a repeatedActionObservation], None, tr)) /\
  (forall n i steps tr acts steps' tr',
     Plan (ExAgent e) (plan_count tr) steps inputs = (acts, None, None) -> acts <> [] ->
     runActions e ntt acts steps (tr ++ [EvPlan (plan_count tr)]) = (steps', None, tr') ->
     forLoop e ntt inputs (S n) i steps tr =
       forLoop e ntt inputs n (i + 1) (lastChance e i steps') tr').
Proof.
  split.
  - intros steps tr a rest H. simpl. unfold checkRepeatedAction. by rewrite H.
  - intros n i steps tr acts steps' tr' Hp Hne Hr.
    apply forLoop_continue.
    rewrite (doIteration_actions e steps ntt inputs tr acts Hp Hne), Hr. reflexivity.
Qed.

(** ** C6 *)

(** C6: when the planner fails with an unparsable-output error: with a
    recovery policy, the (formatted) message is appended as a step with an
    empty action, only the planner call is recorded (no callback), no error
    is returned and the loop goes on; without a policy, the loop returns
    that error and no outputs. *)
Theorem unparsable_output_handling (e : Executor) (ntt : gmap string tools_Tool)
    (inputs : gmap string string) (n : nat) (i : Z) (steps : list AgentStep) (tr : Trace)
    (acts : list AgentAction) (fin : option AgentFinish) (er : Err) :
  Plan (ExAgent e) (plan_count tr) steps inputs = (acts, fin, Some er) ->
  isUnableToParse er = true ->
  (forall h, ErrorHandler e = Some h ->
     let steps' := steps ++ [mkStep emptyAction (recoveryObservation h er)] in
     doIteration e steps ntt inputs tr = (IterOk steps' None None, tr ++ [EvPlan (plan_count tr)]) /\
     forLoop e ntt inputs (S n) i steps tr =
       forLoop e ntt inputs n (i + 1) (lastChance e i steps') (tr ++ [EvPlan (plan_count tr)])) /\
  (ErrorHandler e = None ->
     forLoop e ntt inputs (S n) i steps tr = LoopReturn None (Some er) (tr ++ [EvPlan (plan_count tr)])).
Proof.
  intros Hp Hparse. split.
  - intros h Hh steps'.
    assert (Hd : doIteration e steps ntt inputs tr =
                 (IterOk steps' None None, tr ++ [EvPlan (plan_count tr)])).
    { unfold doIteration. rewrite Hp, Hh, Hparse. reflexivity. }
    split; [done|]. by apply forLoop_continue.
  - intros Hh. apply (forLoop_error _ _ _ _ _ _ _ steps).
    unfold doIteration. rewrite Hp, Hh. reflexivity.
Qed.

(** ** C7 *)

(** C7 (as amended): an action whose upper-cased tool name is not in the
    registry and whose lower-cased name is not "none" gets exactly one step
    "<tool> is not a valid tool, try another one" and the batch goes on with
    the next action; an action whose resolved tool fails makes exactly one
    tool call, and its error is returned unchanged, first by [doAction] with
    an empty ledger, then by the batch (the remaining actions are not
    dispatched), and finally by the loop, with no outputs. *)
Theorem tool_dispatch_outcomes (e : Executor) (ntt : gmap string tools_Tool)
    (inputs : gmap string string) (steps : list AgentStep) (tr : Trace)
    (a : AgentAction) (rest : list AgentAction) :
  is_repeated steps a = false ->
  (ntt !! ToUpper (Tool a) = None -> String.eqb (ToLower (Tool a)) "none" = false ->
     runActions e ntt (a :: rest) steps tr =
       runActions e ntt rest (steps ++ [mkStep a (invalidToolObservation (Tool a))])
         (notify e tr (EvAgentAction a))) /\
  (forall t obs er, ntt !! ToUpper (Tool a) = Some t ->
     ToolCall t steps (ToolInput a) = (obs, Some er) ->
     let tr' := notify e tr (EvAgentAction a) ++ [EvToolCall (Name t) (ToolInput a)] in
     doAction e tr steps ntt a = ([], Some er, tr') /\
     runActions e ntt (a :: rest) steps tr = ([], Some er, tr')) /\
  (forall n i tr0 acts steps' er tr',
     Plan (ExAgent e) (plan_count tr0) steps inputs = (acts, None, None) -> acts <> [] ->
     runActions e ntt acts steps (tr0 ++ [EvPlan (plan_count tr0)]) = (steps', Some er, tr') ->
     forLoop e ntt inputs (S n) i steps tr0 = LoopReturn None (Some er) tr').
Proof.
  intros Hrep. split; [|split].
  - intros Hnone Hname. rewrite runActions_not_repeated by done.
    unfold doAction. by rewrite Hnone, Hname.
  - intros t obs er Ht Hcall tr'.
    assert (Hd : doAction e tr steps ntt a = ([], Some er, tr')).
    { unfold doAction. rewrite Ht, Hcall. reflexivity. }
    split; [done|]. rewrite runActions_not_repeated by done. by rewrite Hd.
  - intros n i tr0 acts steps' er tr' Hp Hne Hr.
    apply (forLoop_error _ _ _ _ _ _ _ steps').
    rewrite (doIteration_actions e steps ntt inputs tr0 acts Hp Hne), Hr. reflexivity.
Qed.

(** ** Registry and case folding *)

Lemma getNameToTool_foldl (t : list tools_Tool) :
  forall (acc : gmap string tools_Tool) k tool,
  foldl (fun m tl => <[ToUpper (Name tl) := tl]> m) acc t !! k = Some tool ->
  acc !! k = Some tool \/ (In tool t /\ ToUpper (Name tool) = k).
Proof.
  induction t as [|x t IH]; intros acc k tool H; simpl in *; [by left|].
  destruct (IH _ _ _ H) as [Hacc|[Hin Hk]]; [|by right; auto].
  destruct (decide (ToUpper (Name x) = k)) as [<-|Hne].
  - rewrite lookup_insert_eq in Hacc. injection Hacc as <-. by right; auto.
  - rewrite lookup_insert_ne in Hacc by done. by left.
Qed.

Lemma getNameToTool_foldl_some (t : list tools_Tool) :
  forall (acc : gmap string tools_Tool) k,
  is_Some (acc !! k) \/ (exists tool, In tool t /\ ToUpper (Name tool) = k) ->
  is_Some (foldl (fun m tl => <[ToUpper (Name tl) := tl]> m) acc t !! k).
Proof.
  induction t as [|x t IH]; intros acc k H; simpl.
  - destruct H as [H|(tool & [] & _)]; done.
  - apply IH. destruct H as [H|(tool & [<-|Hin] & Hk)].
    + left. destruct (decide (ToUpper (Name x) = k)) as [<-|Hne].
      * by rewrite lookup_insert_eq.
      * by rewrite lookup_insert_ne.
    + left. subst k. by rewrite lookup_insert_eq.
    + right. eauto.
Qed.

Lemma getNameToTool_lookup_some (t : list tools_Tool) k tool :
  getNameToTool t !! k = Some tool -> In tool t /\ ToUpper (Name tool) = k.
Proof.
  unfold getNameToTool. destruct t as [|x t']; [by rewrite lookup_empty|].
  intros H. apply getNameToTool_foldl in H as [H|H]; [by rewrite lookup_empty in H|done].
Qed.

Lemma getNameToTool_lookup_registered (t : list tools_Tool) k :
  (exists tool, In tool t /\ ToUpper (Name tool) = k) -> is_Some (getNameToTool t !! k).
Proof.
  intros H. unfold getNameToTool. destruct t as [|x t'].
  - by destruct H as (tool & [] & _).
  - apply getNameToTool_foldl_some. by right.
Qed.

Lemma getNameToTool_lookup_none (t : list tools_Tool) k :
  (forall tool, In tool t -> ToUpper (Name tool) <> k) -> getNameToTool t !! k = None.
Proof.
  intros H. destruct (getNameToTool t !! k) as [tool|] eqn:E; [|done].
  apply getNameToTool_lookup_some in E as [Hin Hk]. by destruct (H tool Hin).
Qed.

Lemma ascii_lower_upper (c : ascii) : ascii_lower (ascii_upper c) = ascii_lower c.
Proof. destruct c as [[] [] [] [] [] [] [] []]; vm_compute; reflexivity. Qed.

Lemma ascii_upper_lower (c : ascii) : ascii_upper (ascii_lower c) = ascii_upper c.
Proof. destruct c as [[] [] [] [] [] [] [] []]; vm_compute; reflexivity. Qed.

Lemma ToLower_ToUpper (s : string) : ToLower (ToUpper s) = ToLower s.
Proof. induction s as [|c s IH]; simpl; [done|]. by rewrite ascii_lower_upper, IH. Qed.

Lemma ToUpper_ToLower (s : string) : ToUpper (ToLower s) = ToUpper s.
Proof. induction s as [|c s IH]; simpl; [done|]. by rewrite ascii_upper_lower, IH. Qed.

(** Case-insensitive equality with "none", as the registry and the
    sentinel test see it. *)
Lemma none_upper_lower (s : string) : ToUpper s = "NONE" <-> ToLower s = "none".
Proof.
  split; intros H.
  - by rewrite <- ToLower_ToUpper, H.
  - by rewrite <- ToUpper_ToLower, H.
Qed.

(** ** C9 *)

(** C9: for an action whose tool name is "none" in any casing, the
    registry is consulted first: when a tool named "none" (in any casing) is
    registered, the registered tool is called with the action's input like
    any other tool; only when none is registered does the sentinel step
    (final-answer hint, no tool call) get appended. *)
Theorem none_registry_before_sentinel (e : Executor) (tools : list tools_Tool)
    (tr : Trace) (steps : list AgentStep) (a : AgentAction) :
  ToLower (Tool a) = "none" ->
  ((exists t0, In t0 tools /\ ToLower (Name t0) = "none") ->
   exists t, getNameToTool tools !! ToUpper (Tool a) = Some t /\ In t tools /\
     ToLower (Name t) = "none" /\
     doAction e tr steps (getNameToTool tools) a =
       (match ToolCall t steps (ToolInput a) with
        | (obs, None) => (steps ++ [mkStep a obs], None)
        | (_, Some er) => ([], Some er)
        end,
        notify e tr (EvAgentAction a) ++ [EvToolCall (Name t) (ToolInput a)])) /\
  ((forall t, In t tools -> ToLower (Name t) <> "none") ->
   doAction e tr steps (getNameToTool tools) a =
     (steps ++ [mkStep a noneToolObservation], None, notify e tr (EvAgentAction a))).
Proof.
  intros Ha. apply none_upper_lower in Ha as Hua. split.
  - intros (t0 & Hin0 & Hn0).
    destruct (getNameToTool_lookup_registered tools (ToUpper (Tool a))) as [t Ht].
    { exists t0. split; [done|]. rewrite Hua. by apply none_upper_lower. }
    pose proof (getNameToTool_lookup_some _ _ _ Ht) as [Hin Hk].
    exists t. split; [done|]. split; [done|]. split.
    + apply none_upper_lower. congruence.
    + unfold doAction. rewrite Ht.
      by destruct (ToolCall t steps (ToolInput a)) as [obs [er|]].
  - intros Hnone. unfold doAction.
    rewrite getNameToTool_lookup_none.
    + by rewrite Ha.
    + intros t Hin Hk. apply (Hnone t Hin). apply none_upper_lower. congruence.
Qed.

(** ** Finish notifications *)

Lemma finish_count_app (tr1 tr2 : Trace) :
  finish_count (tr1 ++ tr2) = finish_count tr1 + finish_count tr2.
Proof. unfold finish_count. by rewrite List.filter_app, length_app. Qed.

Lemma notify_finish_count (e : Executor) (tr : Trace) (ev : Event) :
  is_agent_finish ev = false -> finish_count (notify e tr ev) = finish_count tr.
Proof.
  intros Hev. unfold notify. destruct (HasCallbacks e); [|done].
  rewrite finish_count_app. unfold finish_count at 2; simpl. rewrite Hev. simpl. lia.
Qed.

Lemma doAction_finish_count e tr steps ntt a :
  finish_count (doAction e tr steps ntt a).2 = finish_count tr.
Proof.
  unfold doAction.
  destruct (ntt !! ToUpper (Tool a)) as [t|].
  - destruct (ToolCall t steps (ToolInput a)) as [obs [er|]]; simpl;
      rewrite finish_count_app, notify_finish_count by done;
      unfold finish_count at 2; simpl; lia.
  - destruct (String.eqb _ _); simpl; by rewrite notify_finish_count.
Qed.

Lemma runActions_finish_count e ntt actions :
  forall steps tr, finish_count (runActions e ntt actions steps tr).2 = finish_count tr.
Proof.
  induction actions as [|a rest IH]; intros steps tr; simpl; [done|].
  destruct (checkRepeatedAction steps a) as [s1 [r|]]; [done|].
  pose proof (doAction_finish_count e tr s1 ntt a) as Hd.
  destruct (doAction e tr s1 ntt a) as [[s2 [er|]] tr2]; simpl in *; [done|].
  by rewrite IH.
Qed.

Lemma doIteration_finish_count e steps ntt inputs tr :
  (Plan (ExAgent e) (plan_count tr) steps inputs).1.2 = None ->
  finish_count (doIteration e steps ntt inputs tr).2 = finish_count tr.
Proof.
  intros Hf.
  assert (Hp : finish_count (tr ++ [EvPlan (plan_count tr)]) = finish_count tr).
  { rewrite finish_count_app. unfold finish_count at 2. simpl. lia. }
  unfold doIteration.
  destruct (Plan (ExAgent e) (plan_count tr) steps inputs) as [[actions finish] err].
  simpl in Hf. subst finish.
  destruct err as [er|].
  { destruct (ErrorHandler e); [destruct (isUnableToParse er)|]; exact Hp. }
  destruct actions as [|a rest]; [exact Hp|].
  pose proof (runActions_finish_count e ntt (a :: rest) steps
    (tr ++ [EvPlan (plan_count tr)])) as Hr.
  cbn -[runActions].
  destruct (runActions e ntt (a :: rest) steps _) as [[s er] tr']. simpl in *. congruence.
Qed.

(** [forLoop_plan_args] lists one entry per [EvPlan] the run records,
    with consecutive round numbers starting at the rounds already played. *)
Lemma forLoop_plan_args_rounds e ntt inputs n :
  forall i steps tr,
  map fst (forLoop_plan_args e ntt inputs n i steps tr) =
    seq (plan_count tr) (length (forLoop_plan_args e ntt inputs n i steps tr)) /\
  plan_count (loop_trace (forLoop e ntt inputs n i steps tr)) =
    plan_count tr + length (forLoop_plan_args e ntt inputs n i steps tr).
Proof.
  induction n as [|n IH]; intros i steps tr; simpl; [split; [done|lia]|].
  pose proof (doIteration_plan_count e steps ntt inputs tr) as Hd.
  destruct (doIteration e steps ntt inputs tr) as [[s fin er|] tr']; simpl in *;
    [|split; [done|lia]].
  destruct (isSome fin || isSome er); simpl; [split; [done|lia]|].
  destruct (IH (i + 1)%Z (lastChance e i s) tr') as [H1 H2].
  rewrite Hd in H1, H2. split; [by rewrite H1|lia].
Qed.

Lemma forLoop_finish_count e ntt inputs n :
  forall i steps tr,
  Forall (fun ks => (Plan (ExAgent e) ks.1 ks.2 inputs).1.2 = None)
    (forLoop_plan_args e ntt inputs n i steps tr) ->
  finish_count (loop_trace (forLoop e ntt inputs n i steps tr)) = finish_count tr.
Proof.
  induction n as [|n IH]; intros i steps tr Hnf; simpl in *; [done|].
  inversion Hnf as [|? ? Hhd Htl]; subst; simpl in Hhd.
  pose proof (doIteration_finish_count e steps ntt inputs tr Hhd) as Hd.
  destruct (doIteration e steps ntt inputs tr) as [[s fin er|] tr']; simpl in *; [|done].
  destruct (isSome fin || isSome er); simpl; [done|]. rewrite IH; done.
Qed.

(** ** C4 *)

(** C4 (as amended): when the loop runs all its iterations without
    returning, [Call] returns [ErrNotFinished] with an outputs map that is
    empty if [ReturnIntermediateSteps] is false and holds exactly the ledger
    under "intermediateSteps" if it is true; a configured callbacks handler
    receives, as the last event, a finish whose return values are
    {"output": the NotFinished message}, and when none of the planner calls
    made in this [Call] returned a Finish it is the only finish notification
    of the [Call]. *)
Theorem not_finished_result (e : Executor) (inputValues : list (string * Any))
    (inputs : gmap string string) (steps : list AgentStep) (tr : Trace) :
  inputsToString inputValues = inl inputs ->
  forLoop e (getNameToTool (GetTools (ExAgent e))) inputs
    (Z.to_nat (MaxIterations e)) 0 [] [] = LoopExhausted steps tr ->
  Call e inputValues =
    (Returned (Some (if ReturnIntermediateSteps e
                     then {[ _intermediateStepsOutputKey := ASteps steps ]} else ∅))
              (Some ErrNotFinished),
     notify e tr (EvAgentFinish notFinishedMarker steps)) /\
  (Forall (fun ks => (Plan (ExAgent e) ks.1 ks.2 inputs).1.2 = None)
     (forLoop_plan_args e (getNameToTool (GetTools (ExAgent e))) inputs
        (Z.to_nat (MaxIterations e)) 0 [] []) ->
   finish_count (notify e tr (EvAgentFinish notFinishedMarker steps)) =
     if HasCallbacks e then 1 else 0).
Proof.
  intros Hin Hloop. split.
  - unfold Call. rewrite Hin, Hloop. unfold getReturn; simpl.
    by destruct (ReturnIntermediateSteps e).
  - intros Hnf.
    pose proof (forLoop_finish_count e (getNameToTool (GetTools (ExAgent e))) inputs
                  (Z.to_nat (MaxIterations e)) 0 [] [] Hnf) as H.
    rewrite Hloop in H. simpl in H.
    unfold notify. destruct (HasCallbacks e).
    + rewrite finish_count_app, H. reflexivity.
    + exact H.
Qed.

(** ** C5 *)

(** C5 (as amended): within a [Call], every operation that does not fail
    leaves a ledger that extends the previous one (repetition check, tool
    dispatch, iteration, last-chance hint, whole loop); the only operation
    that drops the ledger is a failing tool invocation, which returns an
    empty ledger with its error, and an iteration returning an error ends
    the loop at once, so the dropped ledger is never used again. *)
Theorem ledger_extends_unless_tool_fails :
  (forall steps a, steps `prefix_of` (checkRepeatedAction steps a).1) /\
  (forall e tr steps ntt a,
     match doAction e tr steps ntt a with
     | (steps', None, _) => steps `prefix_of` steps'
     | (steps', Some _, _) => steps' = []
     end) /\
  (forall e steps ntt inputs tr,
     match (doIteration e steps ntt inputs tr).1 with
     | IterOk steps' _ err => steps `prefix_of` steps' \/ (steps' = [] /\ isSome err = true)
     | IterPanic => True
     end) /\
  (forall e i steps, steps `prefix_of` lastChance e i steps) /\
  (forall e ntt inputs n i steps tr steps' fin er tr',
     doIteration e steps ntt inputs tr = (IterOk steps' fin (Some er), tr') ->
     forLoop e ntt inputs (S n) i steps tr = LoopReturn fin (Some er) tr') /\
  (forall e ntt inputs n i steps tr steps' tr',
     forLoop e ntt inputs n i steps tr = LoopExhausted steps' tr' ->
     steps `prefix_of` steps').
Proof.
  split; [exact checkRepeatedAction_extends|].
  split; [exact doAction_ledger|].
  split; [exact doIteration_ledger|].
  split; [exact lastChance_extends|].
  split; [|exact forLoop_ledger].
  intros e ntt inputs n i steps tr steps' fin er tr' H. simpl. rewrite H.
  by destruct (isSome fin).
Qed.

(** ** C2 *)

(** C2 (failing input): a Finish whose return-value map is nil is taken for
    "no finish" by [Call] ([finish != nil] is false) although the
    [HandleAgentFinish] callback has fired: the loop calls the planner
    again, and the callback fires a second time. *)
Theorem nil_finish_not_final :
  Call nil_finish_exec question =
    (Returned (output_map "done") None,
     [EvPlan 0; EvAgentFinish None []; EvPlan 1; EvAgentFinish (output_map "done") []]).
Proof. vm_compute. reflexivity. Qed.

(** ** Counterexamples *)

(** C1 (counterexample): the planner repeats [calc 2+2] in round 1, yet
    [Call] does not stop there with an empty map: it calls the planner a
    third time and returns that round's Finish. *)
Lemma repeated_action_call_goes_on :
  fst (Call repeating_exec question) = Returned (output_map "4") None /\
  plan_count (snd (Call repeating_exec question)) = 3.
Proof. split; vm_compute; reflexivity. Qed.

(** C4 (counterexample): with [ReturnIntermediateSteps] set, the
    not-finished outputs are not empty: they hold the ledger. *)
Lemma not_finished_outputs_hold_steps :
  fst (Call endless_exec question) =
    Returned (Some {[ _intermediateStepsOutputKey := ASteps [mkStep search_action "Paris"] ]})
             (Some ErrNotFinished) /\
  fst (Call endless_exec question) <> Returned (Some ∅) (Some ErrNotFinished).
Proof. split; vm_compute; [reflexivity|discriminate]. Qed.

(** C5 (counterexample): a failing tool leaves [doAction] with an empty
    ledger, which does not extend the previous one. *)
Lemma failing_tool_drops_ledger :
  ~ ([mkStep search_action "Paris"] `prefix_of`
     (doAction quiet_exec [] [mkStep search_action "Paris"]
        (getNameToTool [failing_calc_tool]) calc_action).1.1).
Proof.
  assert (H : (doAction quiet_exec [] [mkStep search_action "Paris"]
                 (getNameToTool [failing_calc_tool]) calc_action).1.1 = []) by reflexivity.
  rewrite H. apply prefix_nil_not.
Qed.

(** C7 (counterexample): the unregistered tool "None" gets the final-answer
    hint, not the invalid-tool step. *)
Lemma unregistered_none_not_invalid :
  (doAction quiet_exec [] [] (getNameToTool []) none_action).1.1 =
    [mkStep none_action noneToolObservation] /\
  (doAction quiet_exec [] [] (getNameToTool []) none_action).1.1 <>
    [mkStep none_action (invalidToolObservation (Tool none_action))].
Proof. split; vm_compute; [reflexivity|discriminate]. Qed.

(** ** Witnesses: the theorems applied at concrete inputs *)

Lemma repeated_action_soft_stop_witness :
  is_repeated [mkStep calc_action "4"] calc_action = true /\
  runActions repeating_exec ∅ [calc_action; search_action] [mkStep calc_action "4"] [] =
    ([mkStep calc_action "4"; mkStep calc_action repeatedActionObservation], None, []).
Proof.
  split; [reflexivity|].
  apply (proj1 (repeated_action_soft_stop repeating_exec ∅ ∅)). reflexivity.
Defined.

Lemma unparsable_output_handling_witness :
  Plan (ExAgent strict_exec) (plan_count []) [] ∅ =
    ([], None, Some (ErrUnableToParseOutput "unable to parse agent output: ???")) /\
  isUnableToParse (ErrUnableToParseOutput "unable to parse agent output: ???") = true /\
  forLoop strict_exec ∅ ∅ 3 0 [] [] =
    LoopReturn None (Some (ErrUnableToParseOutput "unable to parse agent output: ???")) [EvPlan 0].
Proof.
  split; [reflexivity|]. split; [reflexivity|].
  apply (unparsable_output_handling strict_exec ∅ ∅ 2 0 [] [] [] None
           (ErrUnableToParseOutput "unable to parse agent output: ???")); reflexivity.
Defined.

Lemma not_finished_result_witness :
  inputsToString question = inl {[ "input" := "2+2?" ]} /\
  forLoop late_finish_exec (getNameToTool (GetTools (ExAgent late_finish_exec)))
    {[ "input" := "2+2?" ]} (Z.to_nat (MaxIterations late_finish_exec)) 0 [] [] =
    LoopExhausted [mkStep search_action "Paris"]
      [EvPlan 0; EvAgentAction search_action; EvToolCall "search" "capital of France"] /\
  Forall (fun ks => (Plan (ExAgent late_finish_exec) ks.1 ks.2 {[ "input" := "2+2?" ]}).1.2 = None)
    (forLoop_plan_args late_finish_exec (getNameToTool (GetTools (ExAgent late_finish_exec)))
       {[ "input" := "2+2?" ]} (Z.to_nat (MaxIterations late_finish_exec)) 0 [] []) /\
  (Plan (ExAgent late_finish_exec) 1 [mkStep search_action "Paris"] {[ "input" := "2+2?" ]}).1.2 <> None /\
  finish_count (notify late_finish_exec
      [EvPlan 0; EvAgentAction search_action; EvToolCall "search" "capital of France"]
      (EvAgentFinish notFinishedMarker [mkStep search_action "Paris"])) = 1.
Proof.
  assert (Hin : inputsToString question = inl {[ "input" := "2+2?" ]}) by reflexivity.
  assert (Hloop : forLoop late_finish_exec (getNameToTool (GetTools (ExAgent late_finish_exec)))
                    {[ "input" := "2+2?" ]} (Z.to_nat (MaxIterations late_finish_exec)) 0 [] [] =
                  LoopExhausted [mkStep search_action "Paris"]
                    [EvPlan 0; EvAgentAction search_action; EvToolCall "search" "capital of France"])
    by (vm_compute; reflexivity).
  assert (Hnf : Forall (fun ks => (Plan (ExAgent late_finish_exec) ks.1 ks.2 {[ "input" := "2+2?" ]}).1.2 = None)
    (forLoop_plan_args late_finish_exec (getNameToTool (GetTools (ExAgent late_finish_exec)))
       {[ "input" := "2+2?" ]} (Z.to_nat (MaxIterations late_finish_exec)) 0 [] [])).
  { vm_compute. repeat constructor. }
  split; [exact Hin|]. split; [exact Hloop|]. split; [exact Hnf|].
  split; [discriminate|].
  apply (proj2 (not_finished_result late_finish_exec question _ _ _ Hin Hloop)).
  exact Hnf.
Defined.

Lemma ledger_extends_unless_tool_fails_witness :
  forLoop endless_exec ∅ ∅ 2 0 [] [] =
    LoopExhausted [mkStep search_action "search is not a valid tool, try another one";
                   mkStep search_action repeatedActionObservation]
      [EvPlan 0; EvAgentAction search_action; EvPlan 1] /\
  [] `prefix_of` [mkStep search_action "search is not a valid tool, try another one";
                  mkStep search_action repeatedActionObservation].
Proof.
  assert (H : forLoop endless_exec ∅ ∅ 2 0 [] [] =
    LoopExhausted [mkStep search_action "search is not a valid tool, try another one";
                   mkStep search_action repeatedActionObservation]
      [EvPlan 0; EvAgentAction search_action; EvPlan 1]) by (vm_compute; reflexivity).
  split; [exact H|].
  exact (proj2 (proj2 (proj2 (proj2 (proj2 ledger_extends_unless_tool_fails))))
           endless_exec ∅ ∅ 2%nat 0%Z [] [] _ _ H).
Defined.

Lemma tool_dispatch_outcomes_witness :
  is_repeated [] calc_action = false /\
  runActions quiet_exec (getNameToTool [failing_calc_tool]) [calc_action; search_action] [] [] =
    ([], Some (ErrOther "calculator failed"), [EvToolCall "calc" "2+2"]).
Proof.
  split; [reflexivity|].
  apply (proj1 (proj1 (proj2 (tool_dispatch_outcomes quiet_exec (getNameToTool [failing_calc_tool])
           ∅ [] [] calc_action [search_action] eq_refl)) failing_calc_tool ""
           (ErrOther "calculator failed") eq_refl eq_refl)).
Defined.

Lemma Call_input_not_string_witness :
  In ("input", AInt 3) [("input", AInt 3)] /\ ~ is_string_value (AInt 3) /\
  exists k v, In (k, v) [("input", AInt 3)] /\ ~ is_string_value v /\
    Call quiet_exec [("input", AInt 3)] =
      (Returned None (Some (ErrExecutorInputNotString k)), []).
Proof.
  assert (Hin : In ("input", AInt 3) [("input", AInt 3)]) by (simpl; left; reflexivity).
  assert (Hns : ~ is_string_value (AInt 3)) by (intros [s H]; discriminate).
  split; [exact Hin|]. split; [exact Hns|].
  exact (Call_input_not_string quiet_exec _ _ _ Hin Hns).
Defined.

Lemma none_registry_before_sentinel_witness :
  ToLower (Tool none_action) = "none" /\
  doAction quiet_exec [] [] (getNameToTool [none_tool]) none_action =
    ([mkStep none_action "ran "], None, [EvToolCall "None" ""]).
Proof.
  assert (Ha : ToLower (Tool none_action) = "none") by reflexivity.
  split; [exact Ha|].
  destruct (proj1 (none_registry_before_sentinel quiet_exec [none_tool] [] [] none_action Ha)
              (ex_intro _ none_tool (conj (or_introl eq_refl) eq_refl)))
    as (t & Ht & _ & _ & Hd).
  rewrite Hd. vm_compute in Ht. injection Ht as <-. reflexivity.
Defined.

Lemma Call_nonpositive_max_iterations_witness :
  (MaxIterations quiet_exec <= 0)%Z /\
  Forall (fun kv => is_string_value kv.2) question /\
  Call quiet_exec question = (Returned (Some ∅) (Some ErrNotFinished), []).
Proof.
  assert (Hmax : (MaxIterations quiet_exec <= 0)%Z) by (simpl; lia).
  assert (Hstr : Forall (fun kv => is_string_value kv.2) question)
    by (repeat constructor; eexists; reflexivity).
  split; [exact Hmax|]. split; [exact Hstr|].
  exact (Call_nonpositive_max_iterations quiet_exec question Hmax Hstr).
Defined.

(** * Further properties of the executor *)

(** ** inputsToString *)

Lemma inputsToString_go_lookup (kvs : list (string * Any)) :
  forall acc inputs k s,
  NoDup (map fst kvs) -> inputsToString_go kvs acc = inl inputs ->
  (inputs !! k = Some s <->
   In (k, AStr s) kvs \/ (~ In k (map fst kvs) /\ acc !! k = Some s)).
Proof.
  induction kvs as [|[key value] rest IH]; intros acc inputs k s HN H; simpl in *.
  - injection H as <-. tauto.
  - destruct value as [v|l|z]; try discriminate.
    inversion HN as [|? ? Hkey HN']; subst.
    rewrite list_elem_of_In in Hkey.
    rewrite (IH _ _ k s HN' H).
    destruct (decide (k = key)) as [->|Hne].
    + rewrite lookup_insert_eq.
      assert (Hr : forall x, ~ In (key, x) rest)
        by (intros x Hin; apply Hkey; exact (in_map fst _ _ Hin)).
      simpl. split.
      * intros [Hin|[_ Hv]]; [by destruct (Hr _ Hin)|].
        injection Hv as ->. by left; left.
      * intros [[Heq|Hin]|[Hnin _]].
        -- injection Heq as ->. by right.
        -- by destruct (Hr _ Hin).
        -- exfalso. apply Hnin. by left.
    + rewrite lookup_insert_ne by congruence. simpl. split.
      * intros [Hin|[Hnin Hv]]; [by left; right|].
        right. split; [|done]. intros [?|?]; [congruence|done].
      * intros [[Heq|Hin]|[Hnin Hv]]; [congruence|by left|].
        right. split; [|done]. intros Hin. apply Hnin. by right.
Qed.

(** X1: when every input value is a string (and the keys are those of a Go
    map, hence distinct), the converted inputs map each key to exactly the
    string it had. *)
Theorem inputsToString_lookup (inputValues : list (string * Any))
    (inputs : gmap string string) (k s : string) :
  NoDup (map fst inputValues) -> inputsToString inputValues = inl inputs ->
  (inputs !! k = Some s <-> In (k, AStr s) inputValues).
Proof.
  intros HN H. rewrite (inputsToString_go_lookup _ _ _ k s HN H), lookup_empty.
  split; [intros [?|[_ ?]]; [done|discriminate]|by left].
Qed.

(** X2: [Call] reports the first key, in the order the map is visited,
    whose value is not a string, and does nothing else. *)
Theorem Call_first_non_string_key (e : Executor) (pre post : list (string * Any))
    (k : string) (v : Any) :
  Forall (fun kv => is_string_value kv.2) pre -> ~ is_string_value v ->
  Call e (pre ++ (k, v) :: post) = (Returned None (Some (ErrExecutorInputNotString k)), []).
Proof.
  intros Hpre Hv.
  assert (Hgo : forall acc, inputsToString_go (pre ++ (k, v) :: post) acc =
                            inr (ErrExecutorInputNotString k)).
  { induction pre as [|[key value] pre' IH]; intros acc; simpl.
    - destruct v as [sv|l|z]; [|done|done]. exfalso. apply Hv. by exists sv.
    - inversion Hpre as [|? ? [sv Hs] Hpre']; subst. simpl in Hs. subst.
      by apply IH. }
  unfold Call, inputsToString. by rewrite Hgo.
Qed.

(** ** Tool registry *)

Lemma getNameToTool_foldl_eq (t : list tools_Tool) :
  getNameToTool t = foldl (fun m tool => <[ToUpper (Name tool) := tool]> m) ∅ t.
Proof. by destruct t. Qed.

Lemma foldl_registry_other (post : list tools_Tool) :
  forall (acc : gmap string tools_Tool) k,
  Forall (fun x => ToUpper (Name x) <> k) post ->
  foldl (fun m tool => <[ToUpper (Name tool) := tool]> m) acc post !! k = acc !! k.
Proof.
  induction post as [|x post IH]; intros acc k H; simpl; [done|].
  inversion H as [|? ? Hx Hpost]; subst.
  rewrite IH by done. by rewrite lookup_insert_ne.
Qed.

(** X3: the registry resolves an upper-cased name to the last tool of the
    list with that upper-cased name (last registered wins). *)
Theorem getNameToTool_last_wins (t : list tools_Tool) (k : string) (tool : tools_Tool) :
  getNameToTool t !! k = Some tool <->
  exists pre post, t = pre ++ tool :: post /\ ToUpper (Name tool) = k /\
                   Forall (fun x => ToUpper (Name x) <> k) post.
Proof.
  rewrite getNameToTool_foldl_eq. split.
  - induction t as [|x t' IH] using rev_ind; intros H.
    + simpl in H. by rewrite lookup_empty in H.
    + rewrite foldl_app in H. simpl in H.
      destruct (decide (ToUpper (Name x) = k)) as [<-|Hne].
      * rewrite lookup_insert_eq in H. injection H as <-.
        exists t', []. by repeat split.
      * rewrite lookup_insert_ne in H by done.
        destruct (IH H) as (pre & post & -> & Hk & Hpost).
        exists pre, (post ++ [x]). split; [by rewrite <- app_assoc|]. split; [done|].
        apply Forall_app. split; [done|]. by constructor.
  - intros (pre & post & -> & Hk & Hpost).
    rewrite foldl_app. simpl. rewrite foldl_registry_other by done.
    by rewrite Hk, lookup_insert_eq.
Qed.

(** X4: tool names are resolved case-insensitively: two action tool names
    that agree up to the case of their letters resolve to the same registry
    entry (or both to none). *)
Theorem registry_case_insensitive (t : list tools_Tool) (s1 s2 : string) :
  ToLower s1 = ToLower s2 ->
  getNameToTool t !! ToUpper s1 = getNameToTool t !! ToUpper s2.
Proof. intros H. by rewrite <- (ToUpper_ToLower s1), H, ToUpper_ToLower. Qed.

(** ** Outcomes of one iteration *)

(** X5: a Finish with a non-nil return-value map ends the loop in the same
    iteration: the actions returned with it are not dispatched, the
    callbacks handler sees the Finish and the ledger, and the outputs are
    the return values, with "intermediateSteps" set to (or overwritten by)
    the ledger iff [ReturnIntermediateSteps]. *)
Theorem finish_ends_loop (e : Executor) (ntt : gmap string tools_Tool)
    (inputs : gmap string string) (n : nat) (i : Z) (steps : list AgentStep) (tr : Trace)
    (acts : list AgentAction) (f : AgentFinish) (rv : gmap string Any) :
  Plan (ExAgent e) (plan_count tr) steps inputs = (acts, Some f, None) ->
  ReturnValues f = Some rv ->
  forLoop e ntt inputs (S n) i steps tr =
    LoopReturn (Some (if ReturnIntermediateSteps e
                      then <[ _intermediateStepsOutputKey := ASteps steps ]> rv else rv))
               None
               (notify e (tr ++ [EvPlan (plan_count tr)]) (EvAgentFinish (Some rv) steps)).
Proof.
  intros Hp Hrv. simpl. unfold doIteration. rewrite Hp.
  assert (Hg : getReturn e f steps =
               Some (Some (if ReturnIntermediateSteps e
                           then <[ _intermediateStepsOutputKey := ASteps steps ]> rv else rv))).
  { unfold getReturn. rewrite Hrv. by destruct (ReturnIntermediateSteps e). }
  destruct acts; rewrite Hrv, Hg; reflexivity.
Qed.

(** X6: a planner answer with neither actions nor a Finish (and no error)
    ends the loop with [ErrAgentNoReturn] and no outputs. *)
Theorem no_return_is_fatal (e : Executor) (ntt : gmap string tools_Tool)
    (inputs : gmap string string) (n : nat) (i : Z) (steps : list AgentStep) (tr : Trace) :
  Plan (ExAgent e) (plan_count tr) steps inputs = ([], None, None) ->
  forLoop e ntt inputs (S n) i steps tr =
    LoopReturn None (Some ErrAgentNoReturn) (tr ++ [EvPlan (plan_count tr)]).
Proof. intros Hp. simpl. unfold doIteration. rewrite Hp. reflexivity. Qed.

(** X7: a planner error other than unparsable output ends the loop with
    that error and no outputs, whether or not a parser error handler is
    configured, and whatever actions or Finish came with it. *)
Theorem planner_error_is_fatal (e : Executor) (ntt : gmap string tools_Tool)
    (inputs : gmap string string) (n : nat) (i : Z) (steps : list AgentStep) (tr : Trace)
    (acts : list AgentAction) (fin : option AgentFinish) (er : Err) :
  Plan (ExAgent e) (plan_count tr) steps inputs = (acts, fin, Some er) ->
  isUnableToParse er = false ->
  forLoop e ntt inputs (S n) i steps tr =
    LoopReturn None (Some er) (tr ++ [EvPlan (plan_count tr)]).
Proof.
  intros Hp Hparse. simpl. unfold doIteration. rewrite Hp.
  destruct (ErrorHandler e); [rewrite Hparse|]; reflexivity.
Qed.

(** ** Batches of actions *)

Lemma doAction_one_step e tr steps ntt a :
  match doAction e tr steps ntt a with
  | (steps', None, _) => exists st, steps' = steps ++ [st]
  | (_, Some _, _) => True
  end.
Proof.
  unfold doAction.
  destruct (ntt !! ToUpper (Tool a)) as [t|].
  - destruct (ToolCall t steps (ToolInput a)) as [obs [er|]]; [done|by eexists].
  - destruct (String.eqb _ _); by eexists.
Qed.

(** X8: a batch that ends without error adds at most one step per action
    to the ledger, after the steps already there. *)
Theorem runActions_steps_bound (e : Executor) (ntt : gmap string tools_Tool)
    (actions : list AgentAction) :
  forall steps tr steps' tr',
  runActions e ntt actions steps tr = (steps', None, tr') ->
  exists added, steps' = steps ++ added /\ length added <= length actions.
Proof.
  induction actions as [|a rest IH]; intros steps tr steps' tr' H; simpl in H.
  - injection H as <- _. exists []. split; [by rewrite app_nil_r|simpl; lia].
  - unfold checkRepeatedAction in H. destruct (is_repeated steps a).
    + injection H as <- _. exists [mkStep a repeatedActionObservation].
      split; [done|simpl; lia].
    + pose proof (doAction_one_step e tr steps ntt a) as Hd.
      destruct (doAction e tr steps ntt a) as [[s1 [er|]] tr1]; [discriminate|].
      destruct Hd as [st ->].
      destruct (IH _ _ _ _ H) as (ys & -> & Hys).
      exists (st :: ys). split; [by rewrite <- app_assoc|]. simpl. lia.
Qed.

Lemma notify_tool_calls (e : Executor) (tr : Trace) (ev : Event) :
  is_tool_call ev = false ->
  List.filter is_tool_call (notify e tr ev) = List.filter is_tool_call tr.
Proof.
  intros Hev. unfold notify. destruct (HasCallbacks e); [|done].
  rewrite List.filter_app. simpl. rewrite Hev. apply app_nil_r.
Qed.

(** X9: tool invocations of a batch of actions. Dispatching one action
    invokes the tool its upper-cased name resolves to exactly once, with the
    action's input, whatever the tool returns (no retry), and invokes no
    tool when the name is not registered (an unregistered "none" included);
    a repeated action is not dispatched, so it and the actions after it
    invoke nothing; hence a batch invokes at most one tool per action whose
    name is registered. *)
Theorem dispatch_tool_calls (e : Executor) (ntt : gmap string tools_Tool) :
  (forall tr steps a,
     List.filter is_tool_call (doAction e tr steps ntt a).2 =
       List.filter is_tool_call tr ++
       match ntt !! ToUpper (Tool a) with
       | Some t => [EvToolCall (Name t) (ToolInput a)]
       | None => []
       end) /\
  (forall a rest steps tr,
     is_repeated steps a = true -> (runActions e ntt (a :: rest) steps tr).2 = tr) /\
  (forall actions steps tr,
     tool_call_count (runActions e ntt actions steps tr).2 <=
       tool_call_count tr +
       length (List.filter (fun a => isSome (ntt !! ToUpper (Tool a))) actions)).
Proof.
  assert (Hd : forall tr steps a,
     List.filter is_tool_call (doAction e tr steps ntt a).2 =
       List.filter is_tool_call tr ++
       match ntt !! ToUpper (Tool a) with
       | Some t => [EvToolCall (Name t) (ToolInput a)]
       | None => []
       end).
  { intros tr steps a. unfold doAction.
    destruct (ntt !! ToUpper (Tool a)) as [t|].
    - destruct (ToolCall t steps (ToolInput a)) as [obs [er|]]; simpl;
        by rewrite List.filter_app, notify_tool_calls.
    - rewrite app_nil_r. destruct (String.eqb _ _); simpl; by rewrite notify_tool_calls. }
  split; [exact Hd|]. split.
  - intros a rest steps tr Hr. simpl. unfold checkRepeatedAction. by rewrite Hr.
  - induction actions as [|a rest IH]; intros steps tr; simpl; [lia|].
    destruct (checkRepeatedAction steps a) as [s1 [r|]]; [simpl; lia|].
    pose proof (Hd tr s1 a) as Ha.
    assert (Hc : tool_call_count (doAction e tr s1 ntt a).2 =
                 tool_call_count tr + if isSome (ntt !! ToUpper (Tool a)) then 1 else 0).
    { unfold tool_call_count. rewrite Ha, length_app.
      by destruct (ntt !! ToUpper (Tool a)). }
    destruct (doAction e tr s1 ntt a) as [[s2 [er|]] tr2]; simpl in *.
    + destruct (isSome _); simpl; lia.
    + specialize (IH s2 tr2). destruct (isSome _); simpl; lia.
Qed.

(** ** Callbacks *)

Definition no_callbacks (tr : Trace) : Prop := Forall (fun ev => is_callback ev = false) tr.

Lemma no_callbacks_app (tr1 tr2 : Trace) :
  no_callbacks tr1 -> no_callbacks tr2 -> no_callbacks (tr1 ++ tr2).
Proof. intros; by apply Forall_app. Qed.

Lemma notify_off (e : Executor) (tr : Trace) (ev : Event) :
  HasCallbacks e = false -> notify e tr ev = tr.
Proof. unfold notify. by intros ->. Qed.

Create HintDb callbacks.
#[local] Hint Resolve no_callbacks_app : callbacks.
#[local] Hint Extern 1 (no_callbacks [_]) => (repeat constructor) : callbacks.

Lemma doAction_no_callbacks e tr steps ntt a :
  HasCallbacks e = false -> no_callbacks tr -> no_callbacks (doAction e tr steps ntt a).2.
Proof.
  intros Hcb Htr. unfold doAction. rewrite notify_off by done.
  destruct (ntt !! ToUpper (Tool a)) as [t|].
  - destruct (ToolCall t steps (ToolInput a)) as [obs [er|]]; simpl; auto with callbacks.
  - destruct (String.eqb _ _); done.
Qed.

Lemma runActions_no_callbacks e ntt actions :
  HasCallbacks e = false ->
  forall steps tr, no_callbacks tr -> no_callbacks (runActions e ntt actions steps tr).2.
Proof.
  intros Hcb. induction actions as [|a rest IH]; intros steps tr Htr; simpl; [done|].
  destruct (checkRepeatedAction steps a) as [s1 [r|]]; [done|].
  pose proof (doAction_no_callbacks e tr s1 ntt a Hcb Htr) as Hd.
  destruct (doAction e tr s1 ntt a) as [[s2 [er|]] tr2]; simpl in *; [done|].
  by apply IH.
Qed.

Lemma doIteration_no_callbacks e steps ntt inputs tr :
  HasCallbacks e = false -> no_callbacks tr ->
  no_callbacks (doIteration e steps ntt inputs tr).2.
Proof.
  intros Hcb Htr.
  assert (Hp : no_callbacks (tr ++ [EvPlan (plan_count tr)])) by auto with callbacks.
  unfold doIteration.
  destruct (Plan (ExAgent e) (plan_count tr) steps inputs) as [[actions finish] err].
  destruct err as [er|].
  { destruct (ErrorHandler e); [destruct (isUnableToParse er)|]; exact Hp. }
  destruct actions as [|a rest], finish as [f|]; try exact Hp.
  - rewrite notify_off by done. by destruct (getReturn e f steps).
  - rewrite notify_off by done. by destruct (getReturn e f steps).
  - pose proof (runActions_no_callbacks e ntt (a :: rest) Hcb steps _ Hp) as Hr.
    cbn -[runActions].
    destruct (runActions e ntt (a :: rest) steps _) as [[s er] tr']. done.
Qed.

Lemma forLoop_no_callbacks e ntt inputs n :
  HasCallbacks e = false ->
  forall i steps tr, no_callbacks tr ->
  no_callbacks (loop_trace (forLoop e ntt inputs n i steps tr)).
Proof.
  intros Hcb. induction n as [|n IH]; intros i steps tr Htr; simpl; [done|].
  pose proof (doIteration_no_callbacks e steps ntt inputs tr Hcb Htr) as Hd.
  destruct (doIteration e steps ntt inputs tr) as [[s fin er|] tr']; simpl in *; [|done].
  destruct (isSome fin || isSome er); simpl; [done|]. by apply IH.
Qed.

(** X10: without a callbacks handler, a [Call] records only planner and
    tool invocations: no action or finish notification ever happens. *)
Theorem Call_without_handler_notifies_nothing (e : Executor) (inputValues : list (string * Any)) :
  HasCallbacks e = false -> no_callbacks (Call e inputValues).2.
Proof.
  intros Hcb. unfold Call. destruct (inputsToString inputValues) as [inputs|err]; [|constructor].
  pose proof (forLoop_no_callbacks e (getNameToTool (GetTools (ExAgent e))) inputs
                (Z.to_nat (MaxIterations e)) Hcb 0 [] [] (List.Forall_nil _)) as H.
  destruct (forLoop _ _ _ _ _ _ _) as [fin er tr|tr|steps tr]; simpl in *; try done.
  rewrite notify_off by done. by destruct (getReturn _ _ _).
Qed.

(** ** Panics *)

(** A planner response that makes [getReturn] panic once intermediate
    steps are requested: a Finish, no error, and a nil return-value map. *)
Definition nil_finish_response (r : list AgentAction * option AgentFinish * option Err) : Prop :=
  exists acts f, r = (acts, Some f, None) /\ ReturnValues f = None.

Lemma doIteration_panic e steps ntt inputs tr :
  (doIteration e steps ntt inputs tr).1 = IterPanic <->
  ReturnIntermediateSteps e = true /\
  nil_finish_response (Plan (ExAgent e) (plan_count tr) steps inputs).
Proof.
  unfold doIteration, nil_finish_response.
  destruct (Plan (ExAgent e) (plan_count tr) steps inputs) as [[actions finish] err].
  destruct err as [er|].
  { split; [destruct (ErrorHandler e); [destruct (isUnableToParse er)|]; done|].
    intros (_ & acts & f & Heq & _). discriminate. }
  destruct finish as [f|].
  - assert (Hg : (match getReturn e f steps with
                  | Some out => IterOk steps out None | None => IterPanic end = IterPanic) <->
                 ReturnIntermediateSteps e = true /\
                 exists acts f', (actions, Some f, @None Err) = (acts, Some f', None) /\
                                 ReturnValues f' = None).
    { unfold getReturn. split.
      - destruct (ReturnIntermediateSteps e); [|done].
        destruct (ReturnValues f) eqn:Hrv; [done|]. intros _. split; [done|].
        exists actions, f. done.
      - intros (Hr & acts & f' & Heq & Hrv). injection Heq as -> ->.
        by rewrite Hr, Hrv. }
    destruct actions as [|a rest]; simpl; rewrite <- Hg;
      by destruct (getReturn e f steps).
  - split.
    + destruct actions as [|a rest]; [done|]. cbn -[runActions].
      by destruct (runActions e ntt (a :: rest) steps _) as [[s er] tr'].
    + intros (_ & acts & f & Heq & _). discriminate.
Qed.

Lemma forLoop_panic e ntt inputs n :
  forall i steps tr,
  (exists tr', forLoop e ntt inputs n i steps tr = LoopPanic tr') <->
  ReturnIntermediateSteps e = true /\
  Exists (fun ks => nil_finish_response (Plan (ExAgent e) ks.1 ks.2 inputs))
    (forLoop_plan_args e ntt inputs n i steps tr).
Proof.
  induction n as [|n IH]; intros i steps tr; simpl.
  { split; [intros [tr' H]; discriminate|]. intros [_ H]. inversion H. }
  pose proof (doIteration_panic e steps ntt inputs tr) as Hd.
  destruct (doIteration e steps ntt inputs tr) as [[s fin er|] tr1]; simpl in Hd.
  - assert (Hno : ~ (ReturnIntermediateSteps e = true /\
                     nil_finish_response (Plan (ExAgent e) (plan_count tr) steps inputs)))
      by (rewrite <- Hd; discriminate).
    rewrite Exists_cons. destruct (isSome fin || isSome er).
    + split; [intros [tr' H]; discriminate|].
      intros [Hr [Hhd|Htl]]; [by destruct Hno|inversion Htl].
    + rewrite IH. split.
      * intros [Hr H]. by split; [|right].
      * intros [Hr [Hhd|Htl]]; [by destruct Hno|by split].
  - split.
    + intros _. destruct (proj1 Hd eq_refl) as [Hr Hhd]. split; [done|]. by constructor.
    + intros _. by exists tr1.
Qed.

(** X11: [Call] panics exactly when [ReturnIntermediateSteps] is set and one
    of the planner calls made during this [Call] returned a Finish, without
    error, whose return-value map is nil; every other run returns. *)
Theorem Call_panic_cause (e : Executor) (inputValues : list (string * Any)) :
  fst (Call e inputValues) = Panicked <->
  exists inputs, inputsToString inputValues = inl inputs /\
    ReturnIntermediateSteps e = true /\
    Exists (fun ks => nil_finish_response (Plan (ExAgent e) ks.1 ks.2 inputs))
      (forLoop_plan_args e (getNameToTool (GetTools (ExAgent e))) inputs
         (Z.to_nat (MaxIterations e)) 0 [] []).
Proof.
  unfold Call. destruct (inputsToString inputValues) as [inputs|err].
  2:{ split; [done|]. intros (inputs & H & _). discriminate. }
  pose proof (forLoop_panic e (getNameToTool (GetTools (ExAgent e))) inputs
                (Z.to_nat (MaxIterations e)) 0 [] []) as H.
  destruct (forLoop _ _ _ _ _ _ _) as [fin er tr|tr|steps tr]; simpl.
  - split; [done|]. intros (inputs' & Hin & Hrest). injection Hin as <-.
    apply H in Hrest. destruct Hrest as [tr' Htr']. discriminate.
  - split; [|done]. intros _. exists inputs. split; [done|]. apply H. by exists tr.
  - assert (Hg : fst (match getReturn e (mkFinish (Some ∅) "") steps with
                      | Some out => (Returned out (Some ErrNotFinished),
                                     notify e tr (EvAgentFinish notFinishedMarker steps))
                      | None => (Panicked, notify e tr (EvAgentFinish notFinishedMarker steps))
                      end) <> Panicked)
      by (unfold getReturn; by destruct (ReturnIntermediateSteps e)).
    split; [done|]. intros (inputs' & Hin & Hrest). injection Hin as <-.
    apply H in Hrest. destruct Hrest as [tr' Htr']. discriminate.
Qed.

(** ** Iteration budget *)

Lemma forLoop_exhausted_plan_count e ntt inputs n :
  forall i steps tr steps' tr',
  forLoop e ntt inputs n i steps tr = LoopExhausted steps' tr' ->
  plan_count tr' = plan_count tr + n.
Proof.
  induction n as [|n IH]; intros i steps tr steps' tr' H; simpl in H.
  - injection H as _ <-. lia.
  - pose proof (doIteration_plan_count e steps ntt inputs tr) as Hd.
    destruct (doIteration e steps ntt inputs tr) as [[s fin er|] tr1]; [|discriminate].
    destruct (isSome fin || isSome er); [discriminate|].
    simpl in Hd. rewrite (IH _ _ _ _ _ H), Hd. lia.
Qed.

(** X12: a [Call] that ends because its loop ran out has used its whole
    budget: the planner was invoked exactly [maxIterations] times (zero
    times when [maxIterations <= 0]). *)
Theorem not_finished_uses_whole_budget (e : Executor) (inputValues : list (string * Any))
    (inputs : gmap string string) (steps : list AgentStep) (tr : Trace) :
  inputsToString inputValues = inl inputs ->
  forLoop e (getNameToTool (GetTools (ExAgent e))) inputs
    (Z.to_nat (MaxIterations e)) 0 [] [] = LoopExhausted steps tr ->
  plan_count (Call e inputValues).2 = Z.to_nat (MaxIterations e).
Proof.
  intros Hin Hloop.
  pose proof (forLoop_exhausted_plan_count _ _ _ _ _ _ _ _ _ Hloop) as H.
  unfold Call. rewrite Hin, Hloop. unfold getReturn; simpl.
  destruct (ReturnIntermediateSteps e); simpl;
    rewrite notify_plan_count by done; exact H.
Qed.

(** ** Synthetic steps and the repetition check *)

(** X13: the synthetic steps (parser-error observations and the
    last-chance hint) carry the zero action, so once one is in the ledger an
    action with an empty tool name and empty input counts as repeated: it
    gets the repetition warning and the batch ends without dispatching it. *)
Theorem empty_action_repeats_synthetic_step (e : Executor) (ntt : gmap string tools_Tool)
    (steps : list AgentStep) (tr : Trace) (o l : string) (rest : list AgentAction) :
  In (mkStep emptyAction o) steps ->
  runActions e ntt (mkAction "" "" l :: rest) steps tr =
    (steps ++ [mkStep (mkAction "" "" l) repeatedActionObservation], None, tr).
Proof.
  intros Hin. simpl. unfold checkRepeatedAction.
  assert (Hr : is_repeated steps (mkAction "" "" l) = true).
  { unfold is_repeated. apply existsb_exists. exists (mkStep emptyAction o).
    split; [done|reflexivity]. }
  by rewrite Hr.
Qed.

(** ** Witnesses of the further properties *)

Lemma inputsToString_lookup_witness :
  NoDup (map fst question) /\ inputsToString question = inl {[ "input" := "2+2?" ]} /\
  ({[ "input" := "2+2?" ]} : gmap string string) !! "input" = Some "2+2?".
Proof.
  assert (HN : NoDup (map fst question)) by (simpl; apply NoDup_singleton).
  assert (Hi : inputsToString question = inl {[ "input" := "2+2?" ]}) by reflexivity.
  split; [exact HN|]. split; [exact Hi|].
  apply (inputsToString_lookup question _ "input" "2+2?" HN Hi). simpl. by left.
Defined.

Lemma Call_first_non_string_key_witness :
  Forall (fun kv => is_string_value kv.2) question /\ ~ is_string_value (AInt 1) /\
  Call quiet_exec (question ++ [("n", AInt 1)]) =
    (Returned None (Some (ErrExecutorInputNotString "n")), []).
Proof.
  assert (Hpre : Forall (fun kv => is_string_value kv.2) question)
    by (repeat constructor; eexists; reflexivity).
  assert (Hv : ~ is_string_value (AInt 1)) by (intros [s H]; discriminate).
  split; [exact Hpre|]. split; [exact Hv|].
  exact (Call_first_non_string_key quiet_exec question [] "n" (AInt 1) Hpre Hv).
Defined.

Lemma getNameToTool_last_wins_witness :
  getNameToTool [calc_tool; failing_calc_tool] !! "CALC" = Some failing_calc_tool.
Proof.
  apply (proj2 (getNameToTool_last_wins [calc_tool; failing_calc_tool] "CALC" failing_calc_tool)).
  exists [calc_tool], []. split; [reflexivity|]. split; [reflexivity|]. constructor.
Defined.

Lemma registry_case_insensitive_witness :
  ToLower "Calc" = ToLower "cALC" /\
  getNameToTool [calc_tool] !! ToUpper "Calc" = getNameToTool [calc_tool] !! ToUpper "cALC".
Proof.
  assert (H : ToLower "Calc" = ToLower "cALC") by reflexivity.
  split; [exact H|]. exact (registry_case_insensitive [calc_tool] _ _ H).
Defined.

Lemma finish_ends_loop_witness :
  Plan (ExAgent finishing_exec) (plan_count []) [] ∅ =
    ([calc_action], Some (mkFinish (output_map "4") ""), None) /\
  forLoop finishing_exec ∅ ∅ 3 0 [] [] =
    LoopReturn (Some (<[ _intermediateStepsOutputKey := ASteps [] ]> {[ "output" := AStr "4" ]}))
      None [EvPlan 0; EvAgentFinish (output_map "4") []].
Proof.
  assert (Hp : Plan (ExAgent finishing_exec) (plan_count []) [] ∅ =
               ([calc_action], Some (mkFinish (output_map "4") ""), None)) by reflexivity.
  split; [exact Hp|].
  exact (finish_ends_loop finishing_exec ∅ ∅ 2 0 [] [] _ _ {[ "output" := AStr "4" ]}
           Hp eq_refl).
Defined.

Lemma no_return_is_fatal_witness :
  Plan (ExAgent quiet_exec) (plan_count []) [] ∅ = ([], None, None) /\
  forLoop quiet_exec ∅ ∅ 1 0 [] [] = LoopReturn None (Some ErrAgentNoReturn) [EvPlan 0].
Proof.
  assert (Hp : Plan (ExAgent quiet_exec) (plan_count []) [] ∅ = ([], None, None)) by reflexivity.
  split; [exact Hp|]. exact (no_return_is_fatal quiet_exec ∅ ∅ 0 0 [] [] Hp).
Defined.

Lemma planner_error_is_fatal_witness :
  Plan (ExAgent erroring_exec) (plan_count []) [] ∅ =
    ([calc_action], None, Some (ErrOther "rate limited")) /\
  isUnableToParse (ErrOther "rate limited") = false /\
  forLoop erroring_exec ∅ ∅ 3 0 [] [] =
    LoopReturn None (Some (ErrOther "rate limited")) [EvPlan 0].
Proof.
  assert (Hp : Plan (ExAgent erroring_exec) (plan_count []) [] ∅ =
               ([calc_action], None, Some (ErrOther "rate limited"))) by reflexivity.
  assert (He : isUnableToParse (ErrOther "rate limited") = false) by reflexivity.
  split; [exact Hp|]. split; [exact He|].
  exact (planner_error_is_fatal erroring_exec ∅ ∅ 2 0 [] [] _ _ _ Hp He).
Defined.

Lemma runActions_steps_bound_witness :
  runActions repeating_exec (getNameToTool [calc_tool]) [calc_action; calc_action] [] [] =
    ([mkStep calc_action "4"; mkStep calc_action repeatedActionObservation], None,
     [EvAgentAction calc_action; EvToolCall "calc" "2+2"]) /\
  exists added, [mkStep calc_action "4"; mkStep calc_action repeatedActionObservation] = [] ++ added /\
                length added <= 2.
Proof.
  assert (H : runActions repeating_exec (getNameToTool [calc_tool]) [calc_action; calc_action] [] [] =
    ([mkStep calc_action "4"; mkStep calc_action repeatedActionObservation], None,
     [EvAgentAction calc_action; EvToolCall "calc" "2+2"])) by (vm_compute; reflexivity).
  split; [exact H|]. exact (runActions_steps_bound _ _ _ _ _ _ _ H).
Defined.

Lemma Call_without_handler_notifies_nothing_witness :
  HasCallbacks silent_exec = false /\
  (Call silent_exec question).2 = [EvPlan 0; EvToolCall "calc" "2+2"; EvPlan 1; EvPlan 2] /\
  no_callbacks (Call silent_exec question).2.
Proof.
  assert (H : HasCallbacks silent_exec = false) by reflexivity.
  split; [exact H|]. split; [vm_compute; reflexivity|].
  exact (Call_without_handler_notifies_nothing silent_exec question H).
Defined.

Lemma dispatch_tool_calls_witness :
  List.filter is_tool_call
    (doAction repeating_exec [EvPlan 0] [] (getNameToTool [calc_tool]) calc_action).2 =
    [EvToolCall "calc" "2+2"] /\
  List.filter is_tool_call
    (doAction repeating_exec [EvPlan 0] [] (getNameToTool [calc_tool]) none_action).2 = [] /\
  is_repeated [mkStep calc_action "4"] calc_action = true /\
  (runActions repeating_exec (getNameToTool [calc_tool]) [calc_action; search_action]
     [mkStep calc_action "4"] [EvPlan 1]).2 = [EvPlan 1] /\
  tool_call_count (runActions repeating_exec (getNameToTool [calc_tool])
     [search_action; calc_action; none_action] [] []).2 <= 1.
Proof.
  destruct (dispatch_tool_calls repeating_exec (getNameToTool [calc_tool])) as (H1 & H2 & H3).
  assert (Hr : is_repeated [mkStep calc_action "4"] calc_action = true) by reflexivity.
  split; [rewrite H1; vm_compute; reflexivity|].
  split; [rewrite H1; vm_compute; reflexivity|].
  split; [exact Hr|]. split; [exact (H2 _ _ _ _ Hr)|].
  etransitivity; [apply H3|]. vm_compute. lia.
Defined.

Lemma Call_panic_cause_witness :
  forLoop_plan_args nil_steps_exec (getNameToTool (GetTools (ExAgent nil_steps_exec)))
    {[ "input" := "2+2?" ]} (Z.to_nat (MaxIterations nil_steps_exec)) 0 [] [] = [(0, [])] /\
  fst (Call nil_steps_exec question) = Panicked /\
  fst (Call nil_finish_exec question) <> Panicked /\
  fst (Call finishing_exec question) <> Panicked.
Proof.
  split; [vm_compute; reflexivity|].
  split; [|split].
  - apply (proj2 (Call_panic_cause nil_steps_exec question)).
    exists {[ "input" := "2+2?" ]}. split; [reflexivity|]. split; [reflexivity|].
    vm_compute. constructor. exists [], (mkFinish None ""). split; reflexivity.
  - intros H. apply (proj1 (Call_panic_cause nil_finish_exec question)) in H.
    destruct H as (inputs & _ & Hr & _). discriminate.
  - intros H. apply (proj1 (Call_panic_cause finishing_exec question)) in H.
    destruct H as (inputs & Hin & _ & Hex). injection Hin as <-.
    vm_compute in Hex. inversion Hex as [? ? (acts & f & Heq & Hrv)|? ? Htl]; subst.
    + injection Heq as _ <-. discriminate.
    + inversion Htl.
Defined.

Lemma not_finished_uses_whole_budget_witness :
  inputsToString question = inl {[ "input" := "2+2?" ]} /\
  plan_count (Call endless_exec question).2 = 1.
Proof.
  assert (Hin : inputsToString question = inl {[ "input" := "2+2?" ]}) by reflexivity.
  assert (Hloop : forLoop endless_exec (getNameToTool (GetTools (ExAgent endless_exec)))
                    {[ "input" := "2+2?" ]} (Z.to_nat (MaxIterations endless_exec)) 0 [] [] =
                  LoopExhausted [mkStep search_action "Paris"]
                    [EvPlan 0; EvAgentAction search_action; EvToolCall "search" "capital of France"])
    by (vm_compute; reflexivity).
  split; [exact Hin|].
  exact (not_finished_uses_whole_budget endless_exec question _ _ _ Hin Hloop).
Defined.

Lemma empty_action_repeats_synthetic_step_witness :
  In (mkStep emptyAction lastChanceObservation) [mkStep emptyAction lastChanceObservation] /\
  runActions quiet_exec ∅ [mkAction "" "" "thinking"] [mkStep emptyAction lastChanceObservation] [] =
    ([mkStep emptyAction lastChanceObservation;
      mkStep (mkAction "" "" "thinking") repeatedActionObservation], None, []).
Proof.
  assert (H : In (mkStep emptyAction lastChanceObservation) [mkStep emptyAction lastChanceObservation])
    by (simpl; left; reflexivity).
  split; [exact H|].
  exact (empty_action_repeats_synthetic_step quiet_exec ∅ _ [] lastChanceObservation "thinking" [] H).
Defined.
